(** * The undo/redo editor component of [src/app/app.ts]

    A shallow embedding of the [AppComponent] class: its fields become a
    record, every method becomes a function from component to component, and
    the callbacks handed to [setTimeout] become entries of a queue of pending
    tasks that the event loop runs later, one at a time.  Console output has
    no effect on the component and is left out. *)

From Stdlib Require Import String Ascii List Arith Bool Lia DecimalString.
Import ListNotations.
Local Open Scope string_scope.
Local Open Scope nat_scope.

(** ** JavaScript strings

    A string is a sequence of code units; [length], indexing, [substring] and
    [+] all count code units.  Offsets are the non-negative integers the DOM
    reports ([unsigned long]), hence [nat]. *)

Module JsString.

(** [str.substring(a, b)]: both indices are clamped to the length, and
    swapped when the first is the larger. *)
Definition substring (str : string) (a b : nat) : string :=
  let len := String.length str in
  let a' := Nat.min a len in
  let b' := Nat.min b len in
  let lo := Nat.min a' b' in
  let hi := Nat.max a' b' in
  String.substring lo (hi - lo) str.

(** [str.substring(a)]: the end index defaults to the length. *)
Definition substringFrom (str : string) (a : nat) : string :=
  substring str a (String.length str).

(** [str[i]]: [None] stands for [undefined]. *)
Definition charAt (str : string) (i : nat) : option ascii := String.get i str.

(** [a || b] on strings: the empty string is the only falsy one. *)
Definition or (a b : string) : string :=
  match a with
  | EmptyString => b
  | _ => a
  end.

(** Interpolation of a number in a template literal. *)
Definition ofNumber (n : nat) : string := NilEmpty.string_of_uint (Nat.to_uint n).

Definition newline : ascii := "010"%char.

End JsString.

(** ** JavaScript arrays used as stacks

    [push] appends at the end and [pop] removes the last element, so the top
    of a stack is the last element of the list. *)

Module JsArray.

Definition push {A} (arr : list A) (x : A) : list A := (arr ++ [x])%list.

(** [arr[i]]: [None] stands for [undefined]. *)
Definition index {A} (arr : list A) (i : nat) : option A := nth_error arr i.

(** [arr[arr.length - 1]]. *)
Definition top {A} (arr : list A) : option A := index arr (length arr - 1).

(** [arr.pop()]: the removed element and the array that is left. *)
Definition pop {A} (arr : list A) : option A * list A := (top arr, removelast arr).

End JsArray.

(** ** The component *)

(** The textarea behind [@ViewChild('editor')]: the part of the DOM element
    the class reads and writes. *)
Record HTMLTextAreaElement : Type := mkTextArea {
  ta_selectionStart : nat;
  ta_selectionEnd : nat;
  ta_focused : bool
}.

Definition focus (ta : HTMLTextAreaElement) : HTMLTextAreaElement :=
  mkTextArea (ta_selectionStart ta) (ta_selectionEnd ta) true.

(** The element's text is not a field of the class, so the offsets are
    recorded as they are passed. *)
Definition setSelectionRange (a b : nat) (ta : HTMLTextAreaElement) : HTMLTextAreaElement :=
  mkTextArea a b (ta_focused ta).

(** The callbacks given to [setTimeout].  [FocusEditor] is the body of the
    timers of [ngAfterViewInit], [undo] and [redo]; [RepositionCursor n] is the
    one of [applyFormatting], whose closure holds [formattedText.length]. *)
Inductive TimerTask : Type :=
| FocusEditor
| RepositionCursor (formattedLength : nat).

Record AppComponent : Type := mkApp {
  editorContent : string;
  undoStack : list string;
  redoStack : list string;
  selectionStart : nat;
  selectionEnd : nat;
  editorElement : option HTMLTextAreaElement;
  debugInfo : string;
  (* callbacks scheduled with setTimeout and not yet run, oldest first *)
  timers : list TimerTask
}.

Section Setters.
Variable s : AppComponent.

Definition withContent (c : string) : AppComponent :=
  mkApp c (undoStack s) (redoStack s) (selectionStart s) (selectionEnd s)
        (editorElement s) (debugInfo s) (timers s).

Definition withUndoStack (u : list string) : AppComponent :=
  mkApp (editorContent s) u (redoStack s) (selectionStart s) (selectionEnd s)
        (editorElement s) (debugInfo s) (timers s).

Definition withRedoStack (r : list string) : AppComponent :=
  mkApp (editorContent s) (undoStack s) r (selectionStart s) (selectionEnd s)
        (editorElement s) (debugInfo s) (timers s).

Definition withSelection (a b : nat) : AppComponent :=
  mkApp (editorContent s) (undoStack s) (redoStack s) a b
        (editorElement s) (debugInfo s) (timers s).

Definition withElement (e : option HTMLTextAreaElement) : AppComponent :=
  mkApp (editorContent s) (undoStack s) (redoStack s) (selectionStart s) (selectionEnd s)
        e (debugInfo s) (timers s).

Definition withDebugInfo (d : string) : AppComponent :=
  mkApp (editorContent s) (undoStack s) (redoStack s) (selectionStart s) (selectionEnd s)
        (editorElement s) d (timers s).

Definition withTimers (t : list TimerTask) : AppComponent :=
  mkApp (editorContent s) (undoStack s) (redoStack s) (selectionStart s) (selectionEnd s)
        (editorElement s) (debugInfo s) t.

(** [setTimeout(task, _)]: every delay in the class is at least that of the
    timers scheduled before it, so pending callbacks run in the order they
    were scheduled. *)
Definition setTimeout (task : TimerTask) : AppComponent :=
  withTimers (timers s ++ [task])%list.
End Setters.

Definition welcome : string :=
  "Welcome to the text editor with undo/redo functionality!"
  ++ String JsString.newline (String JsString.newline
       "Try selecting some text and clicking the formatting buttons above.").

(** The field initialisers; the framework has resolved the view child (or
    has not, when no textarea is rendered). *)
Definition newAppComponent (el : option HTMLTextAreaElement) : AppComponent :=
  mkApp welcome [] [] 0 0 el "No actions yet" [].

(** The status line written to [debugInfo]. *)
Definition statusLine (action : string) (s : AppComponent) : string :=
  "Action: " ++ action
  ++ " | Undo stack: " ++ JsString.ofNumber (length (undoStack s))
  ++ " | Redo stack: " ++ JsString.ofNumber (length (redoStack s)).

Definition saveState (action : string) (s : AppComponent) : AppComponent :=
  let s := withUndoStack s (JsArray.push (undoStack s) (editorContent s)) in
  let s := withRedoStack s [] in
  withDebugInfo s (statusLine action s).

Definition ngAfterViewInit (s : AppComponent) : AppComponent :=
  let s := saveState "Initial state" s in
  setTimeout s FocusEditor.

Definition onTextChange (newText : string) (s : AppComponent) : AppComponent :=
  if negb (editorContent s =? newText)%string then
    let s := withContent s newText in
    saveState "Text changed" s
  else s.

(** [event.target] is the textarea the event came from. *)
Definition onSelectionChange (target : HTMLTextAreaElement) (s : AppComponent) : AppComponent :=
  withSelection s (ta_selectionStart target) (ta_selectionEnd target).

Definition applyFormatting (prefix suffix defaultText : string) (s : AppComponent)
  : AppComponent :=
  match editorElement s with
  | None => s
  | Some textarea =>
      let s := withSelection s (ta_selectionStart textarea) (ta_selectionEnd textarea) in
      let selectedText :=
        JsString.substring (editorContent s) (selectionStart s) (selectionEnd s) in
      let textToInsert := JsString.or selectedText defaultText in
      let formattedText := prefix ++ textToInsert ++ suffix in
      let beforeText := JsString.substring (editorContent s) 0 (selectionStart s) in
      let afterText := JsString.substringFrom (editorContent s) (selectionEnd s) in
      let s := withContent s (beforeText ++ formattedText ++ afterText) in
      let s := saveState "Applied formatting" s in
      setTimeout s (RepositionCursor (String.length formattedText))
  end.

Definition formatBold (s : AppComponent) : AppComponent :=
  applyFormatting "**" "**" "Bold text" s.

Definition formatItalic (s : AppComponent) : AppComponent :=
  applyFormatting "_" "_" "Italic text" s.

(** The prefix [formatHeading] computes before it calls [applyFormatting];
    it reads the tracked [selectionStart]. *)
Definition headingPrefix (s : AppComponent) : string :=
  if (0 <? selectionStart s)
     && match JsString.charAt (editorContent s) (selectionStart s - 1) with
        | Some c => Ascii.eqb c JsString.newline
        | None => false
        end
  then "# "
  else String JsString.newline "# ".

Definition formatHeading (s : AppComponent) : AppComponent :=
  applyFormatting (headingPrefix s) "" "Heading" s.

Definition undo (s : AppComponent) : AppComponent :=
  if length (undoStack s) <=? 1 then s
  else
    let s := withRedoStack s (JsArray.push (redoStack s) (editorContent s)) in
    let s := withUndoStack s (snd (JsArray.pop (undoStack s))) in
    (* the stack still holds an entry here, see [undo_reads_defined] *)
    let s := withContent s (match JsArray.top (undoStack s) with
                            | Some c => c
                            | None => editorContent s
                            end) in
    let s := withDebugInfo s (statusLine "Undo" s) in
    setTimeout s FocusEditor.

Definition redo (s : AppComponent) : AppComponent :=
  if length (redoStack s) =? 0 then s
  else
    match JsArray.pop (redoStack s) with
    | (Some redoState, rest) =>
        let s := withRedoStack s rest in
        let s := withUndoStack s (JsArray.push (undoStack s) redoState) in
        let s := withContent s redoState in
        let s := withDebugInfo s (statusLine "Redo" s) in
        setTimeout s FocusEditor
    | (None, _) => s (* a non-empty array always pops an element *)
    end.

Definition clearHistory (s : AppComponent) : AppComponent :=
  let currentState := editorContent s in
  let s := withUndoStack s [currentState] in
  let s := withRedoStack s [] in
  withDebugInfo s (statusLine "Clear history" s).

Definition canUndo (s : AppComponent) : bool := 1 <? length (undoStack s).

Definition canRedo (s : AppComponent) : bool := 0 <? length (redoStack s).

(** ** Deferred callbacks *)

Definition runTask (task : TimerTask) (s : AppComponent) : AppComponent :=
  match task with
  | FocusEditor => withElement s (option_map focus (editorElement s))
  | RepositionCursor formattedLength =>
      let newPosition := selectionStart s + formattedLength in
      let s := withElement s
                 (option_map (fun ta => setSelectionRange newPosition newPosition (focus ta))
                             (editorElement s)) in
      withSelection s newPosition newPosition
  end.

(** The event loop takes the oldest pending callback and runs it. *)
Definition fireTimer (s : AppComponent) : AppComponent :=
  match timers s with
  | [] => s
  | task :: rest => runTask task (withTimers s rest)
  end.

(** ** The event loop

    What can happen to a rendered component: the user-facing handlers, the
    browser moving the caret of the textarea, and a pending callback running.
    Each runs to completion before the next. *)

Inductive Event : Type :=
| TextChange (newText : string)
| SelectionChange (target : HTMLTextAreaElement)
| CaretMoved (a b : nat)
| Bold
| Italic
| Heading
| UndoClicked
| RedoClicked
| ClearClicked
| TimerFired.

Definition handle (ev : Event) (s : AppComponent) : AppComponent :=
  match ev with
  | TextChange newText => onTextChange newText s
  | SelectionChange target => onSelectionChange target s
  | CaretMoved a b => withElement s (option_map (setSelectionRange a b) (editorElement s))
  | Bold => formatBold s
  | Italic => formatItalic s
  | Heading => formatHeading s
  | UndoClicked => undo s
  | RedoClicked => redo s
  | ClearClicked => clearHistory s
  | TimerFired => fireTimer s
  end.

(** [run evs s]: the events of [evs] handled in order, starting from [s]. *)
Definition run (evs : list Event) (s : AppComponent) : AppComponent :=
  fold_left (fun st ev => handle ev st) evs s.

(** The component once its view is initialised: the first snapshot is on the
    undo stack. *)
Definition initialized (el : option HTMLTextAreaElement) : AppComponent :=
  ngAfterViewInit (newAppComponent el).

Inductive reachable : AppComponent -> Prop :=
| reachable_init : forall el, reachable (initialized el)
| reachable_step : forall ev s, reachable s -> reachable (handle ev s).

(** A component holding [content] with the caret range [(a, b)], both in the
    tracked fields and in the textarea; used to state the examples. *)
Definition editing (content : string) (a b : nat) : AppComponent :=
  mkApp content [content] [] a b (Some (mkTextArea a b true)) "No actions yet" [].

(** ** Properties of components *)

(** The top of the undo stack is the buffer. *)
Definition history_inv (s : AppComponent) : Prop :=
  JsArray.top (undoStack s) = Some (editorContent s).

(** The tracked selection lies within the buffer.  Offsets are naturals, so
    [0 <= selectionStart] needs no clause. *)
Definition in_bounds (s : AppComponent) : Prop :=
  selectionStart s <= selectionEnd s
  /\ selectionEnd s <= String.length (editorContent s).

(** The events that go through the history: an edit, undo, redo, clear. *)
Definition isHistoryEvent (ev : Event) : bool :=
  match ev with
  | TextChange _ | UndoClicked | RedoClicked | ClearClicked => true
  | _ => false
  end.

(** A freshly rendered editor: the welcome text, the caret at offset 0. *)
Definition fresh_editor : AppComponent := initialized (Some (mkTextArea 0 0 false)).

(** ** The formatting contract in the specification's words

    [buffer[i:j]] is the text from offset [i] up to, not including, offset
    [j]; [buffer[i:]] runs to the end. *)

Definition spec_slice (buffer : string) (i j : nat) : string :=
  String.substring i (j - i) buffer.

Definition spec_sliceFrom (buffer : string) (i : nat) : string :=
  spec_slice buffer i (String.length buffer).

Definition spec_formatted (prefix suffix defaultText buffer : string) (s e : nat) : string :=
  prefix ++ (if s <? e then spec_slice buffer s e else defaultText) ++ suffix.

Definition spec_newBuffer (prefix suffix defaultText buffer : string) (s e : nat) : string :=
  spec_slice buffer 0 s
  ++ spec_formatted prefix suffix defaultText buffer s e
  ++ spec_sliceFrom buffer e.

Definition spec_newCursor (prefix suffix defaultText buffer : string) (s e : nat) : nat :=
  s + String.length (spec_formatted prefix suffix defaultText buffer s e).

(** ** Views of the history *)

(** The snapshots in the order they were taken: the undo stack, then the
    undone ones, the most recently undone first. *)
Definition timeline (s : AppComponent) : list string :=
  (undoStack s ++ rev (redoStack s))%list.

(** [undo] (resp. [redo]) called [k] times in a row. *)
Definition undoTimes (k : nat) (s : AppComponent) : AppComponent := Nat.iter k undo s.

Definition redoTimes (k : nat) (s : AppComponent) : AppComponent := Nat.iter k redo s.

(** Every event but undo, redo and clear. *)
Definition isForwardEvent (ev : Event) : bool :=
  match ev with
  | UndoClicked | RedoClicked | ClearClicked => false
  | _ => true
  end.

Definition isClearEvent (ev : Event) : bool :=
  match ev with
  | ClearClicked => true
  | _ => false
  end.

(** The events that call none of the editing or history methods. *)
Definition isPassiveEvent (ev : Event) : bool :=
  match ev with
  | SelectionChange _ | CaretMoved _ _ | TimerFired => true
  | _ => false
  end.

(** The action names the class writes into [debugInfo]. *)
Definition actionNames : list string :=
  ["Initial state"; "Text changed"; "Applied formatting"; "Undo"; "Redo";
   "Clear history"].

(** [debugInfo] is the status line of one of the actions, with the depths
    the two stacks have now. *)
Definition status_current (s : AppComponent) : Prop :=
  exists action, In action actionNames /\ debugInfo s = statusLine action s.

(** The contents of a series of change events that differ from the content
    before them, starting from [current]: a statement device, with which the
    snapshots that [onTextChange] records are described. *)
Fixpoint recorded (current : string) (texts : list string) : list string :=
  match texts with
  | [] => []
  | t :: rest =>
      if (current =? t)%string then recorded current rest
      else t :: recorded t rest
  end.

(** ** Facts about the string and array primitives *)

Section StringFacts.

Lemma length_append (a b : string) :
  String.length (a ++ b) = String.length a + String.length b.
Proof.
  induction a as [|c a IH]; simpl; [reflexivity | now rewrite IH].
Qed.

Lemma length_substring (str : string) :
  forall n m, n + m <= String.length str ->
              String.length (String.substring n m str) = m.
Proof.
  induction str as [|c str IH]; intros n m H; simpl in *.
  - destruct n, m; simpl; lia.
  - destruct n as [|n].
    + destruct m as [|m]; simpl; [reflexivity|].
      rewrite IH; lia.
    + apply IH. lia.
Qed.

(** Within bounds, [substring(a, b)] is the slice of [b - a] code units at [a]. *)
Lemma substring_in_range (str : string) (a b : nat) :
  a <= b -> b <= String.length str ->
  JsString.substring str a b = String.substring a (b - a) str.
Proof.
  intros Hab Hb. unfold JsString.substring.
  rewrite (Nat.min_l a) by lia. rewrite (Nat.min_l b) by lia.
  rewrite Nat.min_l by lia. rewrite Nat.max_r by lia. reflexivity.
Qed.

Lemma substringFrom_in_range (str : string) (a : nat) :
  a <= String.length str ->
  JsString.substringFrom str a = String.substring a (String.length str - a) str.
Proof.
  intros Ha. unfold JsString.substringFrom. now apply substring_in_range.
Qed.

Lemma or_nonempty (a b : string) : 0 < String.length a -> JsString.or a b = a.
Proof. destruct a; simpl; [lia | reflexivity]. Qed.

Lemma or_empty (a b : string) : String.length a = 0 -> JsString.or a b = b.
Proof. destruct a; simpl; [reflexivity | discriminate]. Qed.

(** The text [applyFormatting] wraps is at least as long as the selection. *)
Lemma or_selected_length (str d : string) (a b : nat) :
  a <= b -> b <= String.length str ->
  b - a <= String.length (JsString.or (JsString.substring str a b) d).
Proof.
  intros Hab Hb. rewrite substring_in_range by assumption.
  destruct (Nat.eq_dec a b) as [->|Hne].
  - lia.
  - rewrite or_nonempty; rewrite length_substring; lia.
Qed.

End StringFacts.

Section ArrayFacts.
Context {A : Type}.
Implicit Types (arr : list A) (x : A).

Lemma top_push arr x : JsArray.top (JsArray.push arr x) = Some x.
Proof.
  unfold JsArray.top, JsArray.index, JsArray.push.
  rewrite length_app, Nat.add_sub. simpl.
  rewrite nth_error_app2 by lia. now rewrite Nat.sub_diag.
Qed.

Lemma pop_push arr x : JsArray.pop (JsArray.push arr x) = (Some x, arr).
Proof.
  unfold JsArray.pop. rewrite top_push. unfold JsArray.push.
  now rewrite removelast_last.
Qed.

Lemma top_defined arr : arr <> [] -> exists x, JsArray.top arr = Some x.
Proof.
  intros H. destruct (exists_last H) as [l [x ->]].
  exists x. apply top_push.
Qed.

Lemma top_nonempty arr x : JsArray.top arr = Some x -> arr <> [].
Proof. intros H ->. discriminate H. Qed.

Lemma length_push arr x : length (JsArray.push arr x) = S (length arr).
Proof. unfold JsArray.push. rewrite length_app. simpl. lia. Qed.

Lemma removelast_longer arr : 1 < length arr -> removelast arr <> [].
Proof.
  destruct arr as [|a [|b l]]; simpl; try lia. intros _. discriminate.
Qed.

End ArrayFacts.

(** ** What each method does to each field *)

Section FieldsAfter.
Variable s : AppComponent.

Lemma undoStack_saveState action :
  undoStack (saveState action s) = JsArray.push (undoStack s) (editorContent s).
Proof. reflexivity. Qed.

Lemma redoStack_saveState action : redoStack (saveState action s) = [].
Proof. reflexivity. Qed.

Lemma editorContent_saveState action :
  editorContent (saveState action s) = editorContent s.
Proof. reflexivity. Qed.

Lemma onTextChange_same newText :
  editorContent s = newText -> onTextChange newText s = s.
Proof.
  intros <-. unfold onTextChange. now rewrite String.eqb_refl.
Qed.

Lemma onTextChange_new newText :
  newText <> editorContent s ->
  onTextChange newText s = saveState "Text changed" (withContent s newText).
Proof.
  intros H. unfold onTextChange.
  destruct (String.eqb_spec (editorContent s) newText) as [E|_]; [|reflexivity].
  now contradiction H.
Qed.

Lemma undo_floor_noop : length (undoStack s) <= 1 -> undo s = s.
Proof.
  intros H. unfold undo. apply Nat.leb_le in H. now rewrite H.
Qed.

Lemma redo_empty_noop : redoStack s = [] -> redo s = s.
Proof. intros H. unfold redo. now rewrite H. Qed.

Section Formatting.
Variables (prefix suffix defaultText : string) (ta : HTMLTextAreaElement).
Hypothesis Hel : editorElement s = Some ta.

Local Abbreviation a := (ta_selectionStart ta).
Local Abbreviation b := (ta_selectionEnd ta).
Local Abbreviation formattedText :=
  (prefix ++ JsString.or (JsString.substring (editorContent s) a b) defaultText ++ suffix).

Lemma editorContent_applyFormatting :
  editorContent (applyFormatting prefix suffix defaultText s)
  = JsString.substring (editorContent s) 0 a ++ formattedText
    ++ JsString.substringFrom (editorContent s) b.
Proof. unfold applyFormatting. rewrite Hel. reflexivity. Qed.

Lemma undoStack_applyFormatting :
  undoStack (applyFormatting prefix suffix defaultText s)
  = JsArray.push (undoStack s)
      (editorContent (applyFormatting prefix suffix defaultText s)).
Proof. unfold applyFormatting. rewrite Hel. reflexivity. Qed.

Lemma redoStack_applyFormatting :
  redoStack (applyFormatting prefix suffix defaultText s) = [].
Proof. unfold applyFormatting. rewrite Hel. reflexivity. Qed.

Lemma selection_applyFormatting :
  selectionStart (applyFormatting prefix suffix defaultText s) = a
  /\ selectionEnd (applyFormatting prefix suffix defaultText s) = b.
Proof. unfold applyFormatting. rewrite Hel. split; reflexivity. Qed.

Lemma timers_applyFormatting :
  timers (applyFormatting prefix suffix defaultText s)
  = (timers s ++ [RepositionCursor (String.length formattedText)])%list.
Proof. unfold applyFormatting. rewrite Hel. reflexivity. Qed.
End Formatting.

End FieldsAfter.

(** After the guard of [undo] the popped stack still has a top, so the
    content it assigns is never [undefined]. *)
Lemma undo_reads_defined (s : AppComponent) :
  1 < length (undoStack s) ->
  exists c, JsArray.top (snd (JsArray.pop (undoStack s))) = Some c.
Proof.
  intros H. apply top_defined. simpl. now apply removelast_longer.
Qed.

Lemma undo_above_floor (s : AppComponent) (c : string) :
  1 < length (undoStack s) ->
  JsArray.top (snd (JsArray.pop (undoStack s))) = Some c ->
  editorContent (undo s) = c
  /\ undoStack (undo s) = snd (JsArray.pop (undoStack s))
  /\ redoStack (undo s) = JsArray.push (redoStack s) (editorContent s).
Proof.
  intros H Hc. unfold undo.
  destruct (Nat.leb_spec (length (undoStack s)) 1) as [Hle|_]; [lia|].
  cbn [editorContent undoStack redoStack setTimeout withTimers withDebugInfo
       withContent withUndoStack withRedoStack].
  now rewrite Hc.
Qed.

Lemma redo_pops (s : AppComponent) (rest : list string) (redoState : string) :
  redoStack s = JsArray.push rest redoState ->
  editorContent (redo s) = redoState
  /\ undoStack (redo s) = JsArray.push (undoStack s) redoState
  /\ redoStack (redo s) = rest.
Proof.
  intros H. unfold redo. rewrite H, length_push, pop_push. simpl. auto.
Qed.

(** ** The history invariant is kept by every event *)

Lemma history_inv_saveState action s : history_inv (saveState action s).
Proof.
  unfold history_inv. rewrite undoStack_saveState, editorContent_saveState.
  apply top_push.
Qed.

Lemma history_inv_initialized el : history_inv (initialized el).
Proof. exact (history_inv_saveState "Initial state" (newAppComponent el)). Qed.

Lemma history_inv_onTextChange newText s :
  history_inv s -> history_inv (onTextChange newText s).
Proof.
  intros H. unfold onTextChange.
  destruct (editorContent s =? newText)%string; simpl; [assumption|].
  apply history_inv_saveState.
Qed.

Lemma history_inv_applyFormatting prefix suffix defaultText s :
  history_inv s -> history_inv (applyFormatting prefix suffix defaultText s).
Proof.
  intros H. destruct (editorElement s) as [ta|] eqn:Hel.
  - unfold history_inv. rewrite (undoStack_applyFormatting s _ _ _ ta Hel).
    apply top_push.
  - unfold applyFormatting. now rewrite Hel.
Qed.

Lemma history_inv_undo s : history_inv s -> history_inv (undo s).
Proof.
  intros H. destruct (Nat.leb_spec (length (undoStack s)) 1) as [Hle|Hgt].
  - now rewrite undo_floor_noop.
  - destruct (undo_reads_defined s Hgt) as [c Hc].
    destruct (undo_above_floor s c Hgt Hc) as [Hcontent [Hstack _]].
    unfold history_inv. now rewrite Hcontent, Hstack.
Qed.

Lemma history_inv_redo s : history_inv s -> history_inv (redo s).
Proof.
  intros H. destruct (redoStack s) as [|r0 rs] eqn:Hr.
  - now rewrite redo_empty_noop.
  - assert (Hne : redoStack s <> []) by (rewrite Hr; discriminate).
    destruct (exists_last Hne) as [rest [redoState Hlast]].
    destruct (redo_pops s rest redoState Hlast) as [Hcontent [Hstack _]].
    unfold history_inv. rewrite Hcontent, Hstack. apply top_push.
Qed.

Lemma history_inv_clearHistory s : history_inv (clearHistory s).
Proof. reflexivity. Qed.

Lemma history_inv_fireTimer s : history_inv s -> history_inv (fireTimer s).
Proof.
  intros H. unfold fireTimer. destruct (timers s) as [|[|n] rest]; exact H.
Qed.

Lemma history_inv_handle ev s : history_inv s -> history_inv (handle ev s).
Proof.
  intros H. destruct ev; simpl.
  - now apply history_inv_onTextChange.
  - exact H.
  - exact H.
  - now apply history_inv_applyFormatting.
  - now apply history_inv_applyFormatting.
  - now apply history_inv_applyFormatting.
  - now apply history_inv_undo.
  - now apply history_inv_redo.
  - apply history_inv_clearHistory.
  - now apply history_inv_fireTimer.
Qed.

Lemma history_inv_reachable s : reachable s -> history_inv s.
Proof.
  induction 1 as [el | ev s _ IH].
  - apply history_inv_initialized.
  - now apply history_inv_handle.
Qed.

Lemma reachable_run evs : forall s, reachable s -> reachable (run evs s).
Proof.
  induction evs as [|ev evs IH]; intros s H; simpl.
  - exact H.
  - apply IH. now constructor.
Qed.

(** ** Headings *)

Lemma headingPrefix_after_newline (s : AppComponent) :
  0 < selectionStart s ->
  JsString.charAt (editorContent s) (selectionStart s - 1) = Some JsString.newline ->
  headingPrefix s = "# ".
Proof.
  intros Hpos Hc. unfold headingPrefix. rewrite Hc.
  apply Nat.ltb_lt in Hpos. now rewrite Hpos.
Qed.

Lemma headingPrefix_mid_line (s : AppComponent) :
  JsString.charAt (editorContent s) (selectionStart s - 1) <> Some JsString.newline ->
  headingPrefix s = String JsString.newline "# ".
Proof.
  intros Hc. unfold headingPrefix.
  destruct (JsString.charAt (editorContent s) (selectionStart s - 1)) as [c|].
  - destruct (Ascii.eqb_spec c JsString.newline) as [->|_].
    + now contradiction Hc.
    + now rewrite andb_false_r.
  - now rewrite andb_false_r.
Qed.

(** At offset 0 the guard [selectionStart > 0] fails, whatever the buffer. *)
Lemma headingPrefix_at_zero (s : AppComponent) :
  selectionStart s = 0 -> headingPrefix s = String JsString.newline "# ".
Proof. intros H. unfold headingPrefix. now rewrite H. Qed.

Example heading_after_Hello :
  editorContent (formatHeading (editing "Hello" 5 5))
  = "Hello" ++ String JsString.newline "# Heading".
Proof. reflexivity. Qed.

(** C1: where the code departs from the heading rule.  With "Hello" selected
    from offset 0, [formatHeading] takes the prefix that starts with a
    newline, and the buffer becomes a newline followed by "# Hello", not
    "# Hello". *)
Theorem formatHeading_at_offset_zero :
  headingPrefix (editing "Hello" 0 5) = String JsString.newline "# "
  /\ editorContent (formatHeading (editing "Hello" 0 5))
     = String JsString.newline "# Hello"
  /\ editorContent (formatHeading (editing "Hello" 0 5)) <> "# Hello".
Proof.
  split; [reflexivity|]. split; [reflexivity|].
  vm_compute. discriminate.
Qed.

(** ** Snapshots *)

(** Counterexample to C2 as the specification words it: on a fresh editor,
    after the text changes to "b" the top of the undo stack is "b", not the
    welcome text that was the buffer before. *)
Lemma snapshot_is_not_pre_action_buffer :
  "b" <> editorContent fresh_editor
  /\ JsArray.top (undoStack (onTextChange "b" fresh_editor)) = Some "b"
  /\ JsArray.top (undoStack (onTextChange "b" fresh_editor))
     <> Some (editorContent fresh_editor).
Proof.
  split; [vm_compute; discriminate|]. split; [reflexivity|].
  vm_compute. discriminate.
Qed.

(** C2, amended: an edit or a formatting action pushes the buffer as it is
    after the action, so the top of the undo stack is the new buffer; the
    entries below are the stack as it was, whose top, in a reachable state,
    is the buffer from before the action. *)
Theorem snapshot_is_post_action_buffer
  (s : AppComponent) (newText prefix suffix defaultText : string)
  (ta : HTMLTextAreaElement) :
  reachable s ->
  newText <> editorContent s ->
  editorElement s = Some ta ->
  let edited := onTextChange newText s in
  let formatted := applyFormatting prefix suffix defaultText s in
  (editorContent edited = newText
   /\ undoStack edited = JsArray.push (undoStack s) newText
   /\ JsArray.top (undoStack edited) = Some newText
   /\ JsArray.top (snd (JsArray.pop (undoStack edited))) = Some (editorContent s))
  /\ (undoStack formatted = JsArray.push (undoStack s) (editorContent formatted)
      /\ JsArray.top (undoStack formatted) = Some (editorContent formatted)
      /\ JsArray.top (snd (JsArray.pop (undoStack formatted))) = Some (editorContent s)).
Proof.
  intros Hreach Hnew Hel edited formatted.
  pose proof (history_inv_reachable s Hreach) as Hinv. unfold history_inv in Hinv.
  split.
  - subst edited. rewrite (onTextChange_new s newText Hnew).
    rewrite undoStack_saveState, editorContent_saveState. simpl editorContent.
    repeat split.
    + apply top_push.
    + now rewrite pop_push.
  - subst formatted.
    rewrite (undoStack_applyFormatting s prefix suffix defaultText ta Hel).
    repeat split.
    + apply top_push.
    + now rewrite pop_push.
Qed.

Lemma snapshot_is_post_action_buffer_witness :
  JsArray.top (undoStack (onTextChange "b" fresh_editor)) = Some "b"
  /\ JsArray.top (undoStack (formatBold fresh_editor))
     = Some ("**Bold text**" ++ welcome)
  /\ JsArray.top (snd (JsArray.pop (undoStack (formatBold fresh_editor))))
     = Some welcome.
Proof.
  destruct (snapshot_is_post_action_buffer fresh_editor "b" "**" "**" "Bold text"
              (mkTextArea 0 0 false)) as [[_ [_ [Htop _]]] [_ [Hftop Hbelow]]].
  - apply reachable_init.
  - vm_compute. discriminate.
  - reflexivity.
  - split; [exact Htop|]. split; [exact Hftop | exact Hbelow].
Defined.

(** ** The tracked selection *)

Lemma selection_undo (s : AppComponent) :
  selectionStart (undo s) = selectionStart s
  /\ selectionEnd (undo s) = selectionEnd s
  /\ editorElement (undo s) = editorElement s.
Proof.
  unfold undo. destruct (length (undoStack s) <=? 1); repeat split.
Qed.

Lemma selection_redo (s : AppComponent) :
  selectionStart (redo s) = selectionStart s
  /\ selectionEnd (redo s) = selectionEnd s
  /\ editorElement (redo s) = editorElement s.
Proof.
  unfold redo. destruct (length (redoStack s) =? 0); [repeat split|].
  destruct (JsArray.pop (redoStack s)) as [[redoState|] rest]; repeat split.
Qed.

Lemma selection_onTextChange (newText : string) (s : AppComponent) :
  selectionStart (onTextChange newText s) = selectionStart s
  /\ selectionEnd (onTextChange newText s) = selectionEnd s
  /\ editorElement (onTextChange newText s) = editorElement s.
Proof.
  unfold onTextChange. destruct (editorContent s =? newText)%string; repeat split.
Qed.

Lemma selection_history_event (ev : Event) (s : AppComponent) :
  isHistoryEvent ev = true ->
  selectionStart (handle ev s) = selectionStart s
  /\ selectionEnd (handle ev s) = selectionEnd s.
Proof.
  destruct ev; simpl; try discriminate; intros _.
  - destruct (selection_onTextChange newText s) as (? & ? & _); auto.
  - destruct (selection_undo s) as (? & ? & _); auto.
  - destruct (selection_redo s) as (? & ? & _); auto.
  - split; reflexivity.
Qed.

(** The length of the buffer [applyFormatting] builds, for a selection
    within the old one. *)
Lemma length_applyFormatting
  (s : AppComponent) (prefix suffix defaultText : string) (ta : HTMLTextAreaElement) :
  editorElement s = Some ta ->
  ta_selectionStart ta <= ta_selectionEnd ta ->
  ta_selectionEnd ta <= String.length (editorContent s) ->
  String.length (editorContent (applyFormatting prefix suffix defaultText s))
  = ta_selectionStart ta
    + String.length
        (prefix ++ JsString.or (JsString.substring (editorContent s)
                                  (ta_selectionStart ta) (ta_selectionEnd ta))
                     defaultText ++ suffix)
    + (String.length (editorContent s) - ta_selectionEnd ta).
Proof.
  intros Hel Hab Hb.
  rewrite (editorContent_applyFormatting s prefix suffix defaultText ta Hel).
  rewrite (substring_in_range _ 0) by lia.
  rewrite substringFrom_in_range by lia.
  rewrite !length_append, !length_substring by lia.
  lia.
Qed.

(** Counterexample to C3 as the specification words it: on an emptied
    buffer, Bold inserts its default text and its deferred callback puts the
    caret at offset 13, within the 13 characters of the buffer; undo then
    restores the empty buffer and leaves the tracked offsets at 13.  No
    callback is needed either: with the caret at the end of the welcome text,
    Bold records offset 124, and an edit that empties the buffer leaves it
    there. *)
Lemma selection_escapes_buffer_on_undo :
  let before := run [TextChange ""; Bold; TimerFired; TimerFired] fresh_editor in
  let emptied :=
    run [Bold; TextChange ""] (initialized (Some (mkTextArea 124 124 true))) in
  (reachable before
   /\ in_bounds before
   /\ reachable (undo before)
   /\ editorContent (undo before) = ""
   /\ selectionStart (undo before) = 13
   /\ selectionEnd (undo before) = 13
   /\ ~ in_bounds (undo before))
  /\ (reachable emptied
      /\ editorContent emptied = ""
      /\ selectionEnd emptied = 124
      /\ ~ in_bounds emptied).
Proof.
  intros before emptied.
  assert (Hreach : reachable before)
    by (apply reachable_run; apply reachable_init).
  split.
  - split; [exact Hreach|].
    split; [unfold in_bounds; vm_compute; split; apply le_n|].
    split; [exact (reachable_step UndoClicked before Hreach)|].
    split; [reflexivity|]. split; [reflexivity|]. split; [reflexivity|].
    unfold in_bounds. vm_compute. intros [_ H]. inversion H.
  - split; [apply reachable_run; apply reachable_init|].
    split; [reflexivity|]. split; [reflexivity|].
    unfold in_bounds. vm_compute. intros [_ H]. inversion H.
Qed.

(** C3, amended: [applyFormatting], given a textarea selection within the
    buffer, leaves the tracked selection within the new buffer, on return and
    again after its deferred cursor update.  An edit, undo, redo and clear
    leave the tracked offsets as they were: after one of them the selection is
    within the buffer exactly when the old offsets fit the resulting buffer,
    which they always do after clear. *)
Theorem selection_bound_per_operation
  (s : AppComponent) (prefix suffix defaultText : string)
  (ta : HTMLTextAreaElement) (ev : Event) :
  editorElement s = Some ta ->
  ta_selectionStart ta <= ta_selectionEnd ta ->
  ta_selectionEnd ta <= String.length (editorContent s) ->
  isHistoryEvent ev = true ->
  let formatted := applyFormatting prefix suffix defaultText s in
  (in_bounds formatted
   /\ exists n, timers formatted = (timers s ++ [RepositionCursor n])%list
                /\ in_bounds (runTask (RepositionCursor n) formatted))
  /\ (selectionStart (handle ev s) = selectionStart s
      /\ selectionEnd (handle ev s) = selectionEnd s
      /\ (in_bounds (handle ev s) <->
          selectionStart s <= selectionEnd s
          /\ selectionEnd s <= String.length (editorContent (handle ev s))))
  /\ (in_bounds s -> in_bounds (clearHistory s)).
Proof.
  intros Hel Hab Hb Hev formatted.
  pose proof (length_applyFormatting s prefix suffix defaultText ta Hel Hab Hb) as Hlen.
  pose proof (or_selected_length (editorContent s) defaultText _ _ Hab Hb) as Hsel.
  destruct (selection_applyFormatting s prefix suffix defaultText ta Hel) as [Hs He].
  rewrite !length_append in Hlen.
  split; [split|split].
  - unfold in_bounds. fold formatted in Hlen, Hs, He. rewrite Hs, He, Hlen. lia.
  - eexists. split.
    + exact (timers_applyFormatting s prefix suffix defaultText ta Hel).
    + unfold in_bounds. simpl. fold formatted in Hlen, Hs. rewrite Hs, Hlen.
      rewrite !length_append. lia.
  - destruct (selection_history_event ev s Hev) as [Hs' He'].
    split; [exact Hs'|]. split; [exact He'|].
    unfold in_bounds. rewrite Hs', He'. reflexivity.
  - intros H. exact H.
Qed.

Lemma selection_bound_per_operation_witness :
  in_bounds (formatItalic (editing "abcdef" 0 3))
  /\ in_bounds (runTask (RepositionCursor 5) (formatItalic (editing "abcdef" 0 3)))
  /\ selectionEnd (undo (editing "abcdef" 0 3)) = 3
  /\ in_bounds (clearHistory (editing "abcdef" 0 3)).
Proof.
  destruct (selection_bound_per_operation (editing "abcdef" 0 3)
              "_" "_" "Italic text" (mkTextArea 0 3 true) UndoClicked)
    as [[Hnow [n [Hn Hlater]]] [[_ [Hend _]] Hclear]].
  - reflexivity.
  - simpl. lia.
  - simpl. lia.
  - reflexivity.
  - split; [exact Hnow|]. split.
    + vm_compute in Hn. injection Hn as Hn. subst n. exact Hlater.
    + split; [exact Hend|]. apply Hclear. split; simpl; lia.
Defined.

(** ** Undo and redo *)

(** One step back from a state that was just pushed: the buffer and the undo
    stack are those from before the push, and the redo stack gains the buffer
    that was left. *)
Lemma undo_after_push (s0 s : AppComponent) :
  history_inv s0 ->
  undoStack s = JsArray.push (undoStack s0) (editorContent s) ->
  editorContent (undo s) = editorContent s0
  /\ undoStack (undo s) = undoStack s0
  /\ redoStack (undo s) = JsArray.push (redoStack s) (editorContent s).
Proof.
  intros Hinv Hpush.
  assert (Hpop : JsArray.pop (undoStack s) = (Some (editorContent s), undoStack s0))
    by (rewrite Hpush; apply pop_push).
  assert (Hlen : 1 < length (undoStack s)).
  { rewrite Hpush, length_push.
    pose proof (top_nonempty _ _ Hinv) as Hne.
    destruct (undoStack s0); [now contradiction Hne | simpl; lia]. }
  assert (Htop : JsArray.top (snd (JsArray.pop (undoStack s))) = Some (editorContent s0))
    by (rewrite Hpop; exact Hinv).
  destruct (undo_above_floor s _ Hlen Htop) as (Hc & Hu & Hr).
  rewrite Hpop in Hu. auto.
Qed.

(** C4: from a reachable state with buffer C1, an edit to a different content
    C2 followed by undo restores C1, and redo right after that undo restores
    C2.  The same holds when the edit is a formatting action. *)
Theorem undo_redo_round_trip (s : AppComponent) (C2 : string) :
  reachable s ->
  C2 <> editorContent s ->
  let C1 := editorContent s in
  (editorContent (onTextChange C2 s) = C2
   /\ editorContent (undo (onTextChange C2 s)) = C1
   /\ editorContent (redo (undo (onTextChange C2 s))) = C2)
  /\ (forall prefix suffix defaultText ta,
        editorElement s = Some ta ->
        let formatted := applyFormatting prefix suffix defaultText s in
        editorContent (undo formatted) = C1
        /\ editorContent (redo (undo formatted)) = editorContent formatted).
Proof.
  intros Hreach Hnew C1.
  pose proof (history_inv_reachable s Hreach) as Hinv.
  split.
  - set (edited := onTextChange C2 s).
    assert (Hcontent : editorContent edited = C2)
      by (unfold edited; now rewrite (onTextChange_new s C2 Hnew)).
    assert (Hpush : undoStack edited = JsArray.push (undoStack s) (editorContent edited)).
    { rewrite Hcontent. unfold edited. now rewrite (onTextChange_new s C2 Hnew). }
    destruct (undo_after_push s edited Hinv Hpush) as (Hc & _ & Hr).
    split; [exact Hcontent|]. split; [exact Hc|].
    destruct (redo_pops (undo edited) _ _ Hr) as (Hc' & _).
    now rewrite Hc'.
  - intros prefix suffix defaultText ta Hel formatted.
    pose proof (undoStack_applyFormatting s prefix suffix defaultText ta Hel) as Hpush.
    destruct (undo_after_push s formatted Hinv Hpush) as (Hc & _ & Hr).
    split; [exact Hc|].
    destruct (redo_pops (undo formatted) _ _ Hr) as (Hc' & _).
    exact Hc'.
Qed.

Lemma undo_redo_round_trip_witness :
  editorContent (undo (onTextChange "Hello" fresh_editor)) = welcome
  /\ editorContent (redo (undo (onTextChange "Hello" fresh_editor))) = "Hello".
Proof.
  destruct (undo_redo_round_trip fresh_editor "Hello") as [(_ & Hundo & Hredo) _].
  - apply reachable_init.
  - vm_compute. discriminate.
  - split; [exact Hundo | exact Hredo].
Defined.

(** C5: in every reachable state the undo stack holds at least one entry, and
    [undo] on a stack of exactly one entry returns the component as it was:
    buffer, undo stack and redo stack are unchanged. *)
Theorem undo_keeps_initial_entry (s : AppComponent) :
  reachable s ->
  1 <= length (undoStack s)
  /\ (length (undoStack s) = 1 ->
      undo s = s
      /\ editorContent (undo s) = editorContent s
      /\ undoStack (undo s) = undoStack s
      /\ redoStack (undo s) = redoStack s).
Proof.
  intros Hreach. split.
  - pose proof (history_inv_reachable s Hreach) as Hinv. unfold history_inv in Hinv.
    destruct (undoStack s); [discriminate Hinv | simpl; lia].
  - intros Hone. assert (Hnoop : undo s = s) by (apply undo_floor_noop; lia).
    rewrite Hnoop. auto.
Qed.

Lemma undo_keeps_initial_entry_witness :
  1 <= length (undoStack fresh_editor) /\ undo fresh_editor = fresh_editor.
Proof.
  destruct (undo_keeps_initial_entry fresh_editor (reachable_init _)) as [Hlen Hnoop].
  split; [exact Hlen|].
  apply Hnoop. reflexivity.
Defined.

(** C6: an edit that changes the buffer, and each formatting action, leaves
    the redo stack empty, whatever it held before. *)
Theorem new_action_empties_redo
  (s : AppComponent) (newText prefix suffix defaultText : string)
  (ta : HTMLTextAreaElement) :
  newText <> editorContent s ->
  editorElement s = Some ta ->
  redoStack (onTextChange newText s) = []
  /\ redoStack (applyFormatting prefix suffix defaultText s) = []
  /\ redoStack (formatBold s) = []
  /\ redoStack (formatItalic s) = []
  /\ redoStack (formatHeading s) = [].
Proof.
  intros Hnew Hel.
  split; [now rewrite (onTextChange_new s newText Hnew)|].
  unfold formatBold, formatItalic, formatHeading.
  repeat split; apply (redoStack_applyFormatting s _ _ _ ta Hel).
Qed.

Lemma new_action_empties_redo_witness :
  let undone := undo (onTextChange "Hello" fresh_editor) in
  redoStack undone = ["Hello"]
  /\ redoStack (onTextChange "Bye" undone) = []
  /\ redoStack (formatBold undone) = []
  /\ redoStack (formatItalic undone) = []
  /\ redoStack (formatHeading undone) = [].
Proof.
  intros undone. split; [reflexivity|].
  destruct (new_action_empties_redo undone "Bye" "" "" "" (mkTextArea 0 0 false))
    as (Hedit & _ & Hrest).
  - vm_compute. discriminate.
  - reflexivity.
  - split; [exact Hedit | exact Hrest].
Defined.

(** ** Formatting *)

(** On a selection within the buffer the code wraps what the specification
    says: the selected text, or the default text when the selection is empty. *)
Lemma formattedText_matches_spec (prefix suffix defaultText buffer : string) (a e : nat) :
  a <= e -> e <= String.length buffer ->
  prefix ++ JsString.or (JsString.substring buffer a e) defaultText ++ suffix
  = spec_formatted prefix suffix defaultText buffer a e.
Proof.
  intros Hae He. unfold spec_formatted, spec_slice.
  rewrite substring_in_range by assumption.
  destruct (Nat.ltb_spec a e) as [Hlt|Hge].
  - rewrite or_nonempty; [reflexivity|]. rewrite length_substring; lia.
  - rewrite or_empty; [reflexivity|]. rewrite length_substring; lia.
Qed.

(** C7: with the selection (a, e) within buffer B, [applyFormatting] sets the
    buffer to B[0:a] + formatted + B[e:], where formatted is the prefix, the
    selected text (the default text when a = e) and the suffix, and schedules
    the callback that collapses the tracked selection, and the caret of the
    textarea, at offset a + length(formatted). *)
Theorem applyFormatting_splices_selection
  (s : AppComponent) (prefix suffix defaultText : string) (ta : HTMLTextAreaElement) :
  editorElement s = Some ta ->
  ta_selectionStart ta <= ta_selectionEnd ta ->
  ta_selectionEnd ta <= String.length (editorContent s) ->
  let B := editorContent s in
  let a := ta_selectionStart ta in
  let e := ta_selectionEnd ta in
  let formatted := applyFormatting prefix suffix defaultText s in
  let placeCursor :=
    RepositionCursor (String.length (spec_formatted prefix suffix defaultText B a e)) in
  let cursor := spec_newCursor prefix suffix defaultText B a e in
  editorContent formatted = spec_newBuffer prefix suffix defaultText B a e
  /\ timers formatted = (timers s ++ [placeCursor])%list
  /\ selectionStart (runTask placeCursor formatted) = cursor
  /\ selectionEnd (runTask placeCursor formatted) = cursor
  /\ editorElement (runTask placeCursor formatted) = Some (mkTextArea cursor cursor true)
  /\ editorContent (runTask placeCursor formatted) = editorContent formatted.
Proof.
  intros Hel Hae He B a e formatted placeCursor cursor.
  pose proof (formattedText_matches_spec prefix suffix defaultText B a e Hae He) as Hfmt.
  destruct (selection_applyFormatting s prefix suffix defaultText ta Hel) as [Hs _].
  fold formatted a in Hs.
  assert (Hta : editorElement formatted = Some ta)
    by (unfold formatted, applyFormatting; rewrite Hel; exact Hel).
  split; [|split].
  - unfold formatted. rewrite (editorContent_applyFormatting s _ _ _ ta Hel).
    fold B a e. rewrite Hfmt. unfold spec_newBuffer, spec_sliceFrom, spec_slice.
    rewrite (substring_in_range B 0 a) by (unfold a, B; lia).
    rewrite substringFrom_in_range by exact He.
    reflexivity.
  - unfold formatted. rewrite (timers_applyFormatting s _ _ _ ta Hel).
    fold B a e. now rewrite Hfmt.
  - unfold placeCursor, cursor, spec_newCursor. simpl. rewrite Hs, Hta.
    repeat split.
Qed.

Lemma applyFormatting_splices_selection_witness :
  editorContent (formatBold (editing "abc" 3 3)) = "abc**Bold text**"
  /\ timers (formatBold (editing "abc" 3 3)) = [RepositionCursor 13]
  /\ selectionStart (fireTimer (formatBold (editing "abc" 3 3))) = 16
  /\ selectionEnd (fireTimer (formatBold (editing "abc" 3 3))) = 16.
Proof.
  destruct (applyFormatting_splices_selection (editing "abc" 3 3)
              "**" "**" "Bold text" (mkTextArea 3 3 true))
    as (Hbuffer & Htimers & Hstart & Hend & _).
  - reflexivity.
  - simpl. lia.
  - simpl. lia.
  - split; [exact Hbuffer|]. split; [exact Htimers|].
    split; [exact Hstart | exact Hend].
Defined.

Example italic_on_selection :
  editorContent (formatItalic (editing "abcdef" 0 3)) = "_abc_def"
  /\ selectionStart (fireTimer (formatItalic (editing "abcdef" 0 3))) = 5
  /\ selectionEnd (fireTimer (formatItalic (editing "abcdef" 0 3))) = 5.
Proof. repeat split. Qed.

(** ** Edits *)

(** C8: [onTextChange] with the content the buffer already has returns the
    component as it was; the buffer and the undo stack are unchanged. *)
Theorem onTextChange_same_content_is_noop (s : AppComponent) :
  onTextChange (editorContent s) s = s
  /\ editorContent (onTextChange (editorContent s) s) = editorContent s
  /\ undoStack (onTextChange (editorContent s) s) = undoStack s.
Proof.
  assert (H : onTextChange (editorContent s) s = s)
    by (now apply onTextChange_same).
  rewrite H. auto.
Qed.

(** ** The history invariant *)

(** C9: the initial snapshot makes the top of the undo stack equal to the
    buffer, every event keeps it so, and hence in every reachable state the
    undo stack is non-empty with the buffer on top. *)
Theorem undo_top_is_current_buffer :
  (forall el, history_inv (initialized el))
  /\ (forall s newText, history_inv s -> history_inv (onTextChange newText s))
  /\ (forall s prefix suffix defaultText,
        history_inv s -> history_inv (applyFormatting prefix suffix defaultText s))
  /\ (forall s, history_inv s -> history_inv (undo s))
  /\ (forall s, history_inv s -> history_inv (redo s))
  /\ (forall s, history_inv s -> history_inv (clearHistory s))
  /\ (forall s, reachable s ->
        undoStack s <> []
        /\ JsArray.top (undoStack s) = Some (editorContent s)).
Proof.
  split; [exact history_inv_initialized|].
  split; [intros s newText; apply history_inv_onTextChange|].
  split; [intros s p sf d; apply history_inv_applyFormatting|].
  split; [exact history_inv_undo|].
  split; [exact history_inv_redo|].
  split; [intros s _; apply history_inv_clearHistory|].
  intros s Hreach. pose proof (history_inv_reachable s Hreach) as Hinv.
  split; [exact (top_nonempty _ _ Hinv) | exact Hinv].
Qed.

Lemma undo_top_is_current_buffer_witness :
  let s := run [TextChange "Hello"; Bold; UndoClicked; RedoClicked; ClearClicked]
               fresh_editor in
  undoStack s = ["**Bold text**Hello"]
  /\ editorContent s = "**Bold text**Hello"
  /\ undoStack s <> []
  /\ JsArray.top (undoStack s) = Some (editorContent s).
Proof.
  intros s. split; [reflexivity|]. split; [reflexivity|].
  destruct undo_top_is_current_buffer as (_ & _ & _ & _ & _ & _ & Hreach).
  apply Hreach. unfold s. apply reachable_run. apply reachable_init.
Defined.

(** ** Frame *)

(** After clear there is nothing to undo or redo, and the buffer is kept. *)
Lemma clearHistory_disables_undo_redo (s : AppComponent) :
  canUndo (clearHistory s) = false
  /\ canRedo (clearHistory s) = false
  /\ editorContent (clearHistory s) = editorContent s.
Proof. repeat split. Qed.


(** ** More on undo and redo *)

Lemma top_last_pushed {A} (arr : list A) (x : A) :
  JsArray.top arr = Some x -> exists l, arr = JsArray.push l x.
Proof.
  intros H. destruct (exists_last (top_nonempty _ _ H)) as [l [y Hl]].
  subst arr. change (l ++ [y])%list with (JsArray.push l y) in H.
  rewrite top_push in H. injection H as Hy. subst y. now exists l.
Qed.

Lemma canUndo_true (s : AppComponent) : canUndo s = true <-> 1 < length (undoStack s).
Proof. unfold canUndo. apply Nat.ltb_lt. Qed.

Lemma canRedo_true (s : AppComponent) : canRedo s = true <-> redoStack s <> [].
Proof.
  unfold canRedo. rewrite Nat.ltb_lt.
  destruct (redoStack s); simpl; split; intros H; try lia; try discriminate.
  now contradiction H.
Qed.

(** What one effective [undo] does to the three history fields, when the
    top of the undo stack is the buffer. *)
Lemma undo_pops (s : AppComponent) (below : list string) (c : string) :
  below <> [] ->
  undoStack s = JsArray.push below (editorContent s) ->
  JsArray.top below = Some c ->
  editorContent (undo s) = c
  /\ undoStack (undo s) = below
  /\ redoStack (undo s) = JsArray.push (redoStack s) (editorContent s).
Proof.
  intros Hne Hpush Hc.
  assert (Hlen : 1 < length (undoStack s)).
  { rewrite Hpush, length_push. destruct below; [now contradiction Hne | simpl; lia]. }
  assert (Hpop : JsArray.pop (undoStack s) = (Some (editorContent s), below))
    by (rewrite Hpush; apply pop_push).
  assert (Htop : JsArray.top (snd (JsArray.pop (undoStack s))) = Some c)
    by (rewrite Hpop; exact Hc).
  destruct (undo_above_floor s c Hlen Htop) as (H1 & H2 & H3).
  rewrite Hpop in H2. auto.
Qed.

(** Above the floor, with the buffer on top, the undo stack is some
    non-empty stack with the buffer pushed on it. *)
Lemma undo_stack_shape (s : AppComponent) :
  history_inv s -> 1 < length (undoStack s) ->
  exists below c,
    below <> [] /\ undoStack s = JsArray.push below (editorContent s)
    /\ JsArray.top below = Some c.
Proof.
  intros Hinv Hlen. destruct (top_last_pushed _ _ Hinv) as [below Hpush].
  assert (Hne : below <> []).
  { intros ->. rewrite Hpush in Hlen. simpl in Hlen. lia. }
  destruct (top_defined below Hne) as [c Hc].
  now exists below, c.
Qed.



(** X2: after [clearHistory] the only snapshot is the buffer, which is kept:
    nothing can be undone or redone, [undo] and [redo] return the component
    unchanged, and clearing again changes nothing. *)
Theorem clearHistory_leaves_only_the_buffer (s : AppComponent) :
  undoStack (clearHistory s) = [editorContent s]
  /\ redoStack (clearHistory s) = []
  /\ editorContent (clearHistory s) = editorContent s
  /\ canUndo (clearHistory s) = false
  /\ canRedo (clearHistory s) = false
  /\ undo (clearHistory s) = clearHistory s
  /\ redo (clearHistory s) = clearHistory s
  /\ clearHistory (clearHistory s) = clearHistory s.
Proof.
  repeat split.
Qed.

(** X3: in a reachable state with something to redo, [redo] followed by
    [undo] restores the buffer, the undo stack and the redo stack. *)
Theorem undo_after_redo_restores (s : AppComponent) :
  reachable s ->
  canRedo s = true ->
  editorContent (undo (redo s)) = editorContent s
  /\ undoStack (undo (redo s)) = undoStack s
  /\ redoStack (undo (redo s)) = redoStack s.
Proof.
  intros Hreach Hcan.
  pose proof (history_inv_reachable s Hreach) as Hinv.
  apply canRedo_true in Hcan. destruct (exists_last Hcan) as [rest [x Hx]].
  destruct (redo_pops s rest x Hx) as (Hc & Hu & Hr).
  assert (Hpush : undoStack (redo s)
                  = JsArray.push (undoStack s) (editorContent (redo s)))
    by (now rewrite Hc, Hu).
  destruct (undo_after_push s (redo s) Hinv Hpush) as (Hc' & Hu' & Hr').
  split; [exact Hc'|]. split; [exact Hu'|].
  rewrite Hr', Hr, Hc. symmetry. exact Hx.
Qed.

Lemma undo_after_redo_restores_witness :
  let undone := undo (onTextChange "Hello" fresh_editor) in
  editorContent (undo (redo undone)) = welcome
  /\ undoStack (undo (redo undone)) = [welcome]
  /\ redoStack (undo (redo undone)) = ["Hello"].
Proof.
  intros undone.
  apply (undo_after_redo_restores undone).
  - unfold undone. apply (reachable_step UndoClicked).
    apply (reachable_step (TextChange "Hello")). apply reachable_init.
  - reflexivity.
Defined.

(** X4: in a reachable state with something to undo, [undo] followed by
    [redo] restores the buffer, the undo stack and the redo stack. *)
Theorem redo_after_undo_restores (s : AppComponent) :
  reachable s ->
  canUndo s = true ->
  editorContent (redo (undo s)) = editorContent s
  /\ undoStack (redo (undo s)) = undoStack s
  /\ redoStack (redo (undo s)) = redoStack s.
Proof.
  intros Hreach Hcan.
  pose proof (history_inv_reachable s Hreach) as Hinv.
  apply canUndo_true in Hcan.
  destruct (undo_stack_shape s Hinv Hcan) as (below & c & Hne & Hpush & Hc).
  destruct (undo_pops s below c Hne Hpush Hc) as (_ & Hu & Hr).
  destruct (redo_pops (undo s) _ _ Hr) as (Hc' & Hu' & Hr').
  split; [exact Hc'|]. split; [|exact Hr'].
  rewrite Hu', Hu. symmetry. exact Hpush.
Qed.

Lemma redo_after_undo_restores_witness :
  let edited := onTextChange "Hello" fresh_editor in
  editorContent (redo (undo edited)) = "Hello"
  /\ undoStack (redo (undo edited)) = [welcome; "Hello"]
  /\ redoStack (redo (undo edited)) = [].
Proof.
  intros edited.
  apply (redo_after_undo_restores edited).
  - unfold edited. apply (reachable_step (TextChange "Hello")). apply reachable_init.
  - reflexivity.
Defined.

Lemma timeline_push_undo (u r : list string) (x : string) :
  (u ++ rev (JsArray.push r x))%list = (JsArray.push u x ++ rev r)%list.
Proof.
  unfold JsArray.push. rewrite rev_app_distr. simpl. now rewrite <- app_assoc.
Qed.

(** X5: in a reachable state, [undo] and [redo] only move the boundary
    between the two stacks: the sequence of snapshots, undo stack first and
    then the redo stack from its top down, stays the same, and so does the
    total number of snapshots. *)
Theorem undo_redo_keep_timeline (s : AppComponent) :
  reachable s ->
  timeline (undo s) = timeline s
  /\ timeline (redo s) = timeline s
  /\ length (undoStack (undo s)) + length (redoStack (undo s))
     = length (undoStack s) + length (redoStack s)
  /\ length (undoStack (redo s)) + length (redoStack (redo s))
     = length (undoStack s) + length (redoStack s).
Proof.
  intros Hreach. pose proof (history_inv_reachable s Hreach) as Hinv.
  assert (Hundo : timeline (undo s) = timeline s).
  { destruct (Nat.leb_spec (length (undoStack s)) 1) as [Hle|Hgt].
    - now rewrite undo_floor_noop.
    - destruct (undo_stack_shape s Hinv Hgt) as (below & c & Hne & Hpush & Hc).
      destruct (undo_pops s below c Hne Hpush Hc) as (_ & Hu & Hr).
      unfold timeline. rewrite Hu, Hr, Hpush. apply timeline_push_undo. }
  assert (Hredo : timeline (redo s) = timeline s).
  { destruct (redoStack s) as [|r0 rs] eqn:Hrs.
    - now rewrite redo_empty_noop.
    - assert (Hne : redoStack s <> []) by (rewrite Hrs; discriminate).
      destruct (exists_last Hne) as [rest [x Hx]].
      destruct (redo_pops s rest x Hx) as (_ & Hu & Hr).
      unfold timeline. rewrite Hu, Hr, Hrs.
      rewrite Hrs in Hx. rewrite Hx. symmetry. apply timeline_push_undo. }
  split; [exact Hundo|]. split; [exact Hredo|].
  apply (f_equal (@length string)) in Hundo, Hredo.
  unfold timeline in Hundo, Hredo.
  rewrite !length_app, !length_rev in Hundo, Hredo. auto.
Qed.

Lemma undo_redo_keep_timeline_witness :
  let s := run [TextChange "a"; TextChange "b"; UndoClicked] fresh_editor in
  timeline s = [welcome; "a"; "b"]
  /\ timeline (undo s) = [welcome; "a"; "b"]
  /\ timeline (redo s) = [welcome; "a"; "b"].
Proof.
  intros s. split; [reflexivity|].
  destruct (undo_redo_keep_timeline s) as (Hu & Hr & _).
  - unfold s. apply reachable_run. apply reachable_init.
  - split; [exact Hu | exact Hr].
Defined.

(** ** Several steps back and forth *)

Lemma history_inv_run (evs : list Event) :
  forall s, history_inv s -> history_inv (run evs s).
Proof.
  induction evs as [|ev evs IH]; intros s H; simpl; [exact H|].
  apply IH. now apply history_inv_handle.
Qed.

Lemma undoStack_fireTimer (s : AppComponent) : undoStack (fireTimer s) = undoStack s.
Proof. unfold fireTimer. destruct (timers s) as [|[|n] rest]; reflexivity. Qed.

(** A forward event leaves the entries of the undo stack in place and can
    only push on top of them. *)
Lemma forward_event_extends (ev : Event) (s : AppComponent) :
  isForwardEvent ev = true ->
  exists l, undoStack (handle ev s) = (undoStack s ++ l)%list.
Proof.
  assert (Hfmt : forall p sf d,
             exists l, undoStack (applyFormatting p sf d s) = (undoStack s ++ l)%list).
  { intros p sf d. destruct (editorElement s) as [ta|] eqn:Hel.
    - rewrite (undoStack_applyFormatting s p sf d ta Hel). eexists. reflexivity.
    - unfold applyFormatting. rewrite Hel. exists []. now rewrite app_nil_r. }
  destruct ev; simpl; try discriminate; intros _;
    try apply Hfmt; try (exists []; now rewrite app_nil_r).
  - unfold onTextChange. destruct (editorContent s =? newText)%string; simpl.
    + exists []. now rewrite app_nil_r.
    + eexists. reflexivity.
  - exists []. rewrite app_nil_r. apply undoStack_fireTimer.
Qed.

Lemma forward_run_extends (evs : list Event) :
  forall s, forallb isForwardEvent evs = true ->
            exists l, undoStack (run evs s) = (undoStack s ++ l)%list.
Proof.
  induction evs as [|ev evs IH]; intros s H; simpl in *.
  - exists []. now rewrite app_nil_r.
  - apply andb_true_iff in H. destruct H as [Hev Hevs].
    destruct (forward_event_extends ev s Hev) as [l1 H1].
    destruct (IH (handle ev s) Hevs) as [l2 H2].
    exists (l1 ++ l2)%list. now rewrite H2, H1, app_assoc.
Qed.

(** Undoing once per entry above [base] leaves [base], and moves those
    entries to the redo stack, the last one first. *)
Lemma undoTimes_pops (l : list string) :
  forall s base,
    history_inv s -> base <> [] -> undoStack s = (base ++ l)%list ->
    undoStack (undoTimes (length l) s) = base
    /\ history_inv (undoTimes (length l) s)
    /\ redoStack (undoTimes (length l) s) = (redoStack s ++ rev l)%list.
Proof.
  induction l as [|x l IH] using rev_ind; intros s base Hinv Hne Hstack.
  - simpl. rewrite app_nil_r in *. auto.
  - rewrite length_app, Nat.add_comm. simpl length. simpl Nat.add.
    unfold undoTimes in *. rewrite Nat.iter_succ_r.
    assert (Hne' : (base ++ l)%list <> [])
      by (destruct base; [now contradiction Hne | discriminate]).
    assert (Hx : editorContent s = x).
    { unfold history_inv in Hinv. rewrite Hstack, app_assoc in Hinv.
      change ((base ++ l) ++ [x])%list with (JsArray.push (base ++ l)%list x) in Hinv.
      rewrite top_push in Hinv. now injection Hinv. }
    destruct (top_defined _ Hne') as [c Hc].
    assert (Hpush : undoStack s = JsArray.push (base ++ l)%list (editorContent s))
      by (rewrite Hx, Hstack, app_assoc; reflexivity).
    destruct (undo_pops s _ c Hne' Hpush Hc) as (_ & Hu & Hr).
    destruct (IH (undo s) base (history_inv_undo s Hinv) Hne Hu) as (H1 & H2 & H3).
    split; [exact H1|]. split; [exact H2|].
    rewrite H3, Hr, Hx, rev_app_distr. unfold JsArray.push. simpl.
    now rewrite <- app_assoc.
Qed.

(** Redoing once per undone entry pushes them back in their old order. *)
Lemma redoTimes_pushes (l : list string) :
  forall s r,
    history_inv s -> redoStack s = (r ++ rev l)%list ->
    undoStack (redoTimes (length l) s) = (undoStack s ++ l)%list
    /\ history_inv (redoTimes (length l) s)
    /\ redoStack (redoTimes (length l) s) = r.
Proof.
  induction l as [|x l IH]; intros s r Hinv Hstack.
  - simpl in *. rewrite app_nil_r in *. auto.
  - simpl length. unfold redoTimes in *. rewrite Nat.iter_succ_r.
    simpl in Hstack. rewrite app_assoc in Hstack.
    destruct (redo_pops s _ x Hstack) as (_ & Hu & Hr).
    destruct (IH (redo s) r (history_inv_redo s Hinv) Hr) as (H1 & H2 & H3).
    split; [|split; [exact H2 | exact H3]].
    rewrite H1, Hu. unfold JsArray.push. now rewrite <- app_assoc.
Qed.

Lemma history_inv_same_stack (s s' : AppComponent) :
  history_inv s -> history_inv s' -> undoStack s' = undoStack s ->
  editorContent s' = editorContent s.
Proof.
  unfold history_inv. intros H H' E. rewrite E, H in H'. now injection H'.
Qed.

(** X6: after any run of events that are not undo, redo or clear, undoing
    once per snapshot pushed during the run restores the buffer and the undo
    stack from before the run, and redoing as many times brings back the
    buffer and both stacks from after it. *)
Theorem undo_all_then_redo_all (s : AppComponent) (evs : list Event) :
  reachable s ->
  forallb isForwardEvent evs = true ->
  let s' := run evs s in
  let k := length (undoStack s') - length (undoStack s) in
  (editorContent (undoTimes k s') = editorContent s
   /\ undoStack (undoTimes k s') = undoStack s)
  /\ (editorContent (redoTimes k (undoTimes k s')) = editorContent s'
      /\ undoStack (redoTimes k (undoTimes k s')) = undoStack s'
      /\ redoStack (redoTimes k (undoTimes k s')) = redoStack s').
Proof.
  intros Hreach Hfwd s' k.
  pose proof (history_inv_reachable s Hreach) as Hinv.
  pose proof (history_inv_run evs s Hinv) as Hinv'. fold s' in Hinv'.
  destruct (forward_run_extends evs s Hfwd) as [l Hl]. fold s' in Hl.
  assert (Hk : k = length l) by (unfold k; rewrite Hl, length_app; lia).
  rewrite Hk. clear Hk k.
  destruct (undoTimes_pops l s' (undoStack s) Hinv' (top_nonempty _ _ Hinv) Hl)
    as (Hu & Hi & Hr).
  destruct (redoTimes_pushes l (undoTimes (length l) s') (redoStack s') Hi Hr)
    as (Hu' & Hi' & Hr').
  rewrite Hu, <- Hl in Hu'.
  split; [split|split; [|split]].
  - now apply history_inv_same_stack.
  - exact Hu.
  - now apply history_inv_same_stack.
  - exact Hu'.
  - exact Hr'.
Qed.

Lemma undo_all_then_redo_all_witness :
  let s' := run [TextChange "a"; Bold; TimerFired; TextChange "b"] fresh_editor in
  length (undoStack s') - length (undoStack fresh_editor) = 3
  /\ editorContent (undoTimes 3 s') = welcome
  /\ undoStack (undoTimes 3 s') = [welcome]
  /\ editorContent (redoTimes 3 (undoTimes 3 s')) = "b"
  /\ redoStack (redoTimes 3 (undoTimes 3 s')) = [].
Proof.
  intros s'. split; [reflexivity|].
  destruct (undo_all_then_redo_all fresh_editor
              [TextChange "a"; Bold; TimerFired; TextChange "b"])
    as ((H1 & H2) & (H3 & _ & H5)).
  - apply reachable_init.
  - reflexivity.
  - split; [exact H1|]. split; [exact H2|]. split; [exact H3 | exact H5].
Defined.

(** ** The first snapshot *)

Lemma hd_error_app_nonempty {A} (base l : list A) :
  base <> [] -> hd_error (base ++ l) = hd_error base.
Proof. destruct base; [intros H; now contradiction H | reflexivity]. Qed.

(** Only clear replaces the bottom entry of the undo stack. *)
Lemma bottom_entry_kept (ev : Event) (s : AppComponent) :
  history_inv s ->
  isClearEvent ev = false ->
  hd_error (undoStack (handle ev s)) = hd_error (undoStack s).
Proof.
  intros Hinv Hev. pose proof (top_nonempty _ _ Hinv) as Hne.
  destruct (isForwardEvent ev) eqn:Hfwd.
  - destruct (forward_event_extends ev s Hfwd) as [l Hl].
    rewrite Hl. now apply hd_error_app_nonempty.
  - destruct ev; try discriminate; simpl.
    + destruct (Nat.leb_spec (length (undoStack s)) 1) as [Hle|Hgt].
      * now rewrite undo_floor_noop.
      * destruct (undo_stack_shape s Hinv Hgt) as (below & c & Hb & Hpush & Hc).
        destruct (undo_pops s below c Hb Hpush Hc) as (_ & Hu & _).
        rewrite Hu, Hpush. unfold JsArray.push.
        symmetry. now apply hd_error_app_nonempty.
    + destruct (redoStack s) as [|r0 rs] eqn:Hrs.
      * now rewrite redo_empty_noop.
      * assert (Hr : redoStack s <> []) by (rewrite Hrs; discriminate).
        destruct (exists_last Hr) as [rest [x Hx]].
        destruct (redo_pops s rest x Hx) as (_ & Hu & _).
        rewrite Hu. unfold JsArray.push. now apply hd_error_app_nonempty.
Qed.

Lemma bottom_entry_kept_run (evs : list Event) :
  forall s, history_inv s ->
            forallb (fun ev => negb (isClearEvent ev)) evs = true ->
            hd_error (undoStack (run evs s)) = hd_error (undoStack s).
Proof.
  induction evs as [|ev evs IH]; intros s Hinv H; simpl in *; [reflexivity|].
  apply andb_true_iff in H. destruct H as [Hev Hevs].
  apply negb_true_iff in Hev.
  rewrite IH by (try apply history_inv_handle; assumption).
  now apply bottom_entry_kept.
Qed.

(** X7: as long as the history is not cleared, the initial state is never
    lost: the welcome text stays at the bottom of the undo stack whatever is
    edited, formatted, undone or redone, and undoing down to the floor brings
    the buffer back to it. *)
Theorem initial_state_is_kept (el : option HTMLTextAreaElement) (evs : list Event) :
  forallb (fun ev => negb (isClearEvent ev)) evs = true ->
  let s := run evs (initialized el) in
  hd_error (undoStack s) = Some welcome
  /\ editorContent (undoTimes (length (undoStack s) - 1) s) = welcome
  /\ undoStack (undoTimes (length (undoStack s) - 1) s) = [welcome]
  /\ canUndo (undoTimes (length (undoStack s) - 1) s) = false.
Proof.
  intros Hevs s.
  pose proof (history_inv_initialized el) as Hinit.
  pose proof (history_inv_run evs _ Hinit) as Hinv. fold s in Hinv.
  pose proof (bottom_entry_kept_run evs _ Hinit Hevs) as Hhd. fold s in Hhd.
  change (hd_error (undoStack (initialized el))) with (Some welcome) in Hhd.
  split; [exact Hhd|].
  destruct (undoStack s) as [|w l] eqn:Hstack; [discriminate Hhd|].
  injection Hhd as ->.
  replace (length (welcome :: l) - 1) with (length l) by (simpl; lia).
  assert (Hbase : [welcome] <> []) by discriminate.
  destruct (undoTimes_pops l s [welcome] Hinv Hbase Hstack) as (Hu & Hi & _).
  split; [|split; [exact Hu|]].
  - unfold history_inv in Hi. rewrite Hu in Hi. now injection Hi.
  - unfold canUndo. now rewrite Hu.
Qed.

Lemma initial_state_is_kept_witness :
  let s := run [TextChange "a"; Italic; UndoClicked; RedoClicked; TextChange "b"]
               fresh_editor in
  hd_error (undoStack s) = Some welcome
  /\ length (undoStack s) - 1 = 3
  /\ editorContent (undoTimes 3 s) = welcome.
Proof.
  intros s.
  destruct (initial_state_is_kept (Some (mkTextArea 0 0 false))
              [TextChange "a"; Italic; UndoClicked; RedoClicked; TextChange "b"])
    as (Hhd & Hcontent & _).
  - reflexivity.
  - split; [exact Hhd|]. split; [reflexivity | exact Hcontent].
Defined.

(** ** The status line *)

Lemma status_current_saveState (action : string) (s : AppComponent) :
  In action actionNames -> status_current (saveState action s).
Proof. intros H. exists action. split; [exact H | reflexivity]. Qed.

Lemma status_current_handle (ev : Event) (s : AppComponent) :
  status_current s -> status_current (handle ev s).
Proof.
  intros H. destruct ev; simpl.
  - unfold onTextChange. destruct (editorContent s =? newText)%string; simpl.
    + exact H.
    + apply status_current_saveState. simpl. tauto.
  - exact H.
  - exact H.
  - unfold formatBold, applyFormatting. destruct (editorElement s); [|exact H].
    exists "Applied formatting". split; [simpl; tauto | reflexivity].
  - unfold formatItalic, applyFormatting. destruct (editorElement s); [|exact H].
    exists "Applied formatting". split; [simpl; tauto | reflexivity].
  - unfold formatHeading, applyFormatting. destruct (editorElement s); [|exact H].
    exists "Applied formatting". split; [simpl; tauto | reflexivity].
  - unfold undo. destruct (length (undoStack s) <=? 1); [exact H|].
    exists "Undo". split; [simpl; tauto | reflexivity].
  - unfold redo. destruct (length (redoStack s) =? 0); [exact H|].
    destruct (JsArray.pop (redoStack s)) as [[redoState|] rest]; [|exact H].
    exists "Redo". split; [simpl; tauto | reflexivity].
  - exists "Clear history". split; [simpl; tauto | reflexivity].
  - unfold fireTimer. destruct (timers s) as [|[|n] rest]; exact H.
Qed.

(** X8: the status line is never stale: in every reachable state [debugInfo]
    names one of the six actions and shows the depths the undo and redo
    stacks have in that state. *)
Theorem status_line_shows_current_depths (s : AppComponent) :
  reachable s ->
  exists action,
    In action actionNames
    /\ debugInfo s
       = "Action: " ++ action
         ++ " | Undo stack: " ++ JsString.ofNumber (length (undoStack s))
         ++ " | Redo stack: " ++ JsString.ofNumber (length (redoStack s)).
Proof.
  induction 1 as [el | ev s _ IH].
  - exists "Initial state". split; [simpl; tauto | reflexivity].
  - exact (status_current_handle ev s IH).
Qed.

Lemma status_line_shows_current_depths_witness :
  let s := run [TextChange "a"; TextChange "b"; UndoClicked; TimerFired] fresh_editor in
  debugInfo s = "Action: Undo | Undo stack: 2 | Redo stack: 1"
  /\ exists action,
       In action actionNames
       /\ debugInfo s
          = "Action: " ++ action
            ++ " | Undo stack: " ++ JsString.ofNumber (length (undoStack s))
            ++ " | Redo stack: " ++ JsString.ofNumber (length (redoStack s)).
Proof.
  intros s. split; [reflexivity|].
  apply (status_line_shows_current_depths s).
  unfold s. apply reachable_run. apply reachable_init.
Defined.

(** ** More on formatting *)

(** X9: without a textarea reference the three formatting commands return
    the component unchanged; in particular nothing is pushed on the undo
    stack and the redo stack is not emptied. *)
Theorem formatting_without_textarea_is_noop
  (s : AppComponent) (prefix suffix defaultText : string) :
  editorElement s = None ->
  applyFormatting prefix suffix defaultText s = s
  /\ formatBold s = s
  /\ formatItalic s = s
  /\ formatHeading s = s.
Proof.
  intros Hel. unfold formatBold, formatItalic, formatHeading, applyFormatting.
  rewrite Hel. repeat split.
Qed.

Lemma formatting_without_textarea_is_noop_witness :
  let undone := undo (onTextChange "Hello" (initialized None)) in
  redoStack undone = ["Hello"]
  /\ formatBold undone = undone
  /\ formatItalic undone = undone
  /\ formatHeading undone = undone.
Proof.
  intros undone. split; [reflexivity|].
  destruct (formatting_without_textarea_is_noop undone "" "" "") as (_ & H).
  - reflexivity.
  - exact H.
Defined.

(** X10: on a selection within the buffer, formatting lengthens the buffer
    by the prefix and the suffix, plus the default text when the selection is
    empty; so Bold adds 4 code units around a selection and Italic adds 2. *)
Theorem formatting_lengthens_buffer
  (s : AppComponent) (prefix suffix defaultText : string) (ta : HTMLTextAreaElement) :
  editorElement s = Some ta ->
  ta_selectionStart ta <= ta_selectionEnd ta ->
  ta_selectionEnd ta <= String.length (editorContent s) ->
  String.length (editorContent (applyFormatting prefix suffix defaultText s))
  = String.length (editorContent s) + String.length prefix + String.length suffix
    + (if ta_selectionStart ta <? ta_selectionEnd ta then 0
       else String.length defaultText)
  /\ (ta_selectionStart ta < ta_selectionEnd ta ->
      String.length (editorContent (formatBold s)) = String.length (editorContent s) + 4
      /\ String.length (editorContent (formatItalic s))
         = String.length (editorContent s) + 2).
Proof.
  intros Hel Hab Hb.
  assert (Hgen : forall p sf d,
    String.length (editorContent (applyFormatting p sf d s))
    = String.length (editorContent s) + String.length p + String.length sf
      + (if ta_selectionStart ta <? ta_selectionEnd ta then 0 else String.length d)).
  { intros p sf d.
    rewrite (length_applyFormatting s p sf d ta Hel Hab Hb).
    rewrite (formattedText_matches_spec p sf d _ _ _ Hab Hb).
    unfold spec_formatted, spec_slice. rewrite !length_append.
    destruct (Nat.ltb_spec (ta_selectionStart ta) (ta_selectionEnd ta)).
    - rewrite length_substring by lia. lia.
    - lia. }
  split; [apply Hgen|].
  intros Hlt. unfold formatBold, formatItalic. rewrite !Hgen.
  apply Nat.ltb_lt in Hlt. rewrite Hlt. simpl String.length. lia.
Qed.

Lemma formatting_lengthens_buffer_witness :
  String.length (editorContent (formatBold (editing "abcdef" 2 5))) = 10
  /\ String.length (editorContent (formatItalic (editing "abcdef" 2 5))) = 8.
Proof.
  destruct (formatting_lengthens_buffer (editing "abcdef" 2 5) "" "" ""
              (mkTextArea 2 5 true)) as (_ & H).
  - reflexivity.
  - simpl. lia.
  - simpl. lia.
  - apply H. simpl. lia.
Defined.

Lemma substring_nothing (str : string) : forall n, String.substring n 0 str = "".
Proof.
  induction str as [|c str IH]; intros [|n]; simpl; try reflexivity. apply IH.
Qed.

Lemma substring_everything (str : string) :
  String.substring 0 (String.length str) str = str.
Proof. induction str as [|c str IH]; simpl; [reflexivity | now rewrite IH]. Qed.

Lemma append_empty_r (str : string) : str ++ "" = str.
Proof. induction str as [|c str IH]; simpl; [reflexivity | now rewrite IH]. Qed.

(** X11: when the textarea reports a selection that lies wholly past the end
    of the buffer, [substring] clamps it: the buffer is kept whole and the
    formatted default text is appended to it.  The deferred callback still
    adds the formatted length to the reported start, so the tracked caret
    ends past the end of the new buffer when the start was past the old one. *)
Theorem formatting_past_the_end_appends
  (s : AppComponent) (prefix suffix defaultText : string) (ta : HTMLTextAreaElement) :
  editorElement s = Some ta ->
  String.length (editorContent s) <= ta_selectionStart ta ->
  String.length (editorContent s) <= ta_selectionEnd ta ->
  let formatted := applyFormatting prefix suffix defaultText s in
  let inserted := prefix ++ defaultText ++ suffix in
  editorContent formatted = editorContent s ++ inserted
  /\ timers formatted = (timers s ++ [RepositionCursor (String.length inserted)])%list
  /\ selectionEnd (runTask (RepositionCursor (String.length inserted)) formatted)
     = ta_selectionStart ta + String.length inserted
  /\ (String.length (editorContent s) < ta_selectionStart ta ->
      ~ in_bounds (runTask (RepositionCursor (String.length inserted)) formatted)).
Proof.
  intros Hel Ha He formatted inserted.
  assert (Hsel : JsString.substring (editorContent s)
                   (ta_selectionStart ta) (ta_selectionEnd ta) = "").
  { unfold JsString.substring.
    rewrite (Nat.min_r (ta_selectionStart ta)), (Nat.min_r (ta_selectionEnd ta)) by lia.
    rewrite Nat.min_id, Nat.max_id, Nat.sub_diag. apply substring_nothing. }
  assert (Hbefore : JsString.substring (editorContent s) 0 (ta_selectionStart ta)
                    = editorContent s).
  { unfold JsString.substring.
    rewrite (Nat.min_r (ta_selectionStart ta)) by lia.
    rewrite (Nat.min_l 0), (Nat.min_l 0), Nat.max_r, Nat.sub_0_r by lia.
    apply substring_everything. }
  assert (Hafter : JsString.substringFrom (editorContent s) (ta_selectionEnd ta) = "").
  { unfold JsString.substringFrom, JsString.substring.
    rewrite (Nat.min_r (ta_selectionEnd ta)) by lia.
    rewrite !Nat.min_id, Nat.max_id, Nat.sub_diag. apply substring_nothing. }
  assert (Hcontent : editorContent formatted = editorContent s ++ inserted).
  { unfold formatted. rewrite (editorContent_applyFormatting s _ _ _ ta Hel).
    rewrite Hsel, Hbefore, Hafter. simpl JsString.or.
    now rewrite append_empty_r. }
  assert (Htimers : timers formatted
                    = (timers s ++ [RepositionCursor (String.length inserted)])%list).
  { unfold formatted. rewrite (timers_applyFormatting s _ _ _ ta Hel).
    now rewrite Hsel. }
  destruct (selection_applyFormatting s prefix suffix defaultText ta Hel) as [Hs _].
  fold formatted in Hs.
  split; [exact Hcontent|]. split; [exact Htimers|].
  split; [simpl; now rewrite Hs|].
  intros Hlt [_ Hbound]. simpl in Hbound.
  rewrite Hs, Hcontent, length_append in Hbound. lia.
Qed.

Lemma formatting_past_the_end_appends_witness :
  editorContent (formatBold (editing "abc" 7 9)) = "abc**Bold text**"
  /\ selectionEnd (fireTimer (formatBold (editing "abc" 7 9))) = 20
  /\ ~ in_bounds (fireTimer (formatBold (editing "abc" 7 9))).
Proof.
  destruct (formatting_past_the_end_appends (editing "abc" 7 9)
              "**" "**" "Bold text" (mkTextArea 7 9 true))
    as (Hcontent & _ & Hend & Hout).
  - reflexivity.
  - simpl. lia.
  - simpl. lia.
  - split; [exact Hcontent|]. split; [exact Hend|].
    intros Hin. apply Hout; [simpl; lia | exact Hin].
Defined.





(** ** Events that are not actions *)

(** X13: a selection change, a caret move and a deferred callback never
    touch the buffer, the two stacks or the status line.  A selection change
    copies the offsets of its target into the tracked selection, and each
    firing takes the oldest callback off the queue. *)
Theorem passive_events_keep_history (ev : Event) (s : AppComponent) :
  isPassiveEvent ev = true ->
  (editorContent (handle ev s) = editorContent s
   /\ undoStack (handle ev s) = undoStack s
   /\ redoStack (handle ev s) = redoStack s
   /\ debugInfo (handle ev s) = debugInfo s)
  /\ timers (fireTimer s) = tl (timers s)
  /\ (forall target,
        selectionStart (onSelectionChange target s) = ta_selectionStart target
        /\ selectionEnd (onSelectionChange target s) = ta_selectionEnd target).
Proof.
  intros Hev. split; [|split].
  - destruct ev; simpl; try discriminate.
    + repeat split.
    + repeat split.
    + unfold fireTimer. destruct (timers s) as [|[|n] rest]; repeat split.
  - unfold fireTimer. destruct (timers s) as [|[|n] rest] eqn:E;
      [exact E | reflexivity | reflexivity].
  - intros target. split; reflexivity.
Qed.

Lemma passive_events_keep_history_witness :
  let s := formatBold (editing "abc" 3 3) in
  editorContent (fireTimer s) = "abc**Bold text**"
  /\ undoStack (fireTimer s) = ["abc"; "abc**Bold text**"]
  /\ timers (fireTimer s) = [].
Proof.
  intros s.
  destruct (passive_events_keep_history TimerFired s eq_refl)
    as ((Hc & Hu & _) & Ht & _).
  split; [exact Hc|]. split; [exact Hu | exact Ht].
Defined.

(** ** Series of edits *)

Lemma last_cons_default {A} (l : list A) :
  forall x d, last (x :: l) d = last l x.
Proof.
  induction l as [|y l IH]; intros x d; [reflexivity|].
  change (last (x :: y :: l) d) with (last (y :: l) d).
  now rewrite (IH y d), (IH y x).
Qed.

(** X14: a series of change events records one snapshot for each content
    that differs from the one before it, in order, on top of the undo stack;
    repeated identical contents are recorded once.  The buffer ends as the
    last content delivered, and the redo stack is emptied as soon as one
    event changes the buffer. *)
Theorem edits_record_each_change_once (texts : list string) :
  forall s,
    let s' := run (map TextChange texts) s in
    undoStack s' = (undoStack s ++ recorded (editorContent s) texts)%list
    /\ editorContent s' = last texts (editorContent s)
    /\ redoStack s' = match recorded (editorContent s) texts with
                      | [] => redoStack s
                      | _ => []
                      end.
Proof.
  induction texts as [|t rest IH]; intros s.
  - simpl. rewrite app_nil_r. auto.
  - cbv zeta.
    change (run (map TextChange (t :: rest)) s)
      with (run (map TextChange rest) (onTextChange t s)).
    rewrite last_cons_default.
    change (recorded (editorContent s) (t :: rest))
      with (if (editorContent s =? t)%string
            then recorded (editorContent s) rest
            else t :: recorded t rest).
    destruct (IH (onTextChange t s)) as (Hu & Hc & Hr).
    destruct (String.eqb_spec (editorContent s) t) as [E|E].
    + rewrite (onTextChange_same s t E) in *.
      rewrite <- E. auto.
    + assert (E' : t <> editorContent s) by congruence.
      assert (Hcontent : editorContent (onTextChange t s) = t)
        by (now rewrite (onTextChange_new s t E')).
      assert (Hstack : undoStack (onTextChange t s) = (undoStack s ++ [t])%list)
        by (now rewrite (onTextChange_new s t E')).
      assert (Hredo : redoStack (onTextChange t s) = [])
        by (now rewrite (onTextChange_new s t E')).
      rewrite Hcontent in Hu, Hc, Hr. rewrite Hstack in Hu. rewrite Hredo in Hr.
      rewrite <- app_assoc in Hu.
      split; [exact Hu|]. split; [exact Hc|].
      destruct (recorded t rest); exact Hr.
Qed.

Example edits_recorded_once :
  undoStack (run (map TextChange ["a"; "a"; "b"; "b"; "a"]) fresh_editor)
  = [welcome; "a"; "b"; "a"].
Proof. reflexivity. Qed.
